(** * OIDC single sign-on connector

    A shallow embedding of [packages/core/src/sso/OidcConnector/index.ts]:
    the [OidcConnector] class with its three methods [getOidcConfig],
    [getAuthorizationUrl] and [getUserInfo].

    Conventions of the embedding.
    - A JavaScript object used as a record of string properties is a finite
      map [gmap string string]; reading a property that is not there gives
      [None] (JavaScript's [undefined]).
    - An object whose property order is observable (the one handed to
      [URLSearchParams]) is an association list in insertion order.
    - Strings are sequences of bytes: a [string] stands for the UTF-8 bytes
      of the JavaScript string.
    - An [async] method is a computation in the monad [M]: it threads the
      [World] (the log of calls to external collaborators and the number of
      random identifiers drawn so far) and either returns a value or throws
      a [ConnectorError]. *)

From Stdlib Require Import ZArith NArith Ascii String List.
From stdpp Require Import base option list gmap strings.

Local Open Scope string_scope.

(** ** JavaScript values and objects *)

(** A string-valued property or variable that may be [undefined]. *)
Abbreviation JsVal := (option string).

(** An object with string properties, order not observable. *)
Abbreviation JsObject := (gmap string string).

(** [String(v)], the conversion applied by template literals and by
    [URLSearchParams] to the values it is given. *)
Definition js_to_string (v : JsVal) : string :=
  match v with
  | Some s => s
  | None => "undefined"
  end.

(** [{ ...a, ...b }]: the properties of [a], then those of [b]; a property
    of [b] replaces the property of [a] with the same name. *)
Definition spread (a b : JsObject) : JsObject := b ∪ a.

(** The outcome of an expression used as a condition: some falsy value
    (the empty string, [undefined], [null], [false]) or a truthy value. *)
Inductive JsExp (A : Type) : Type :=
| Falsy
| Truthy (a : A).
Arguments Falsy {A}.
Arguments Truthy {A} a.

(** [v && k], for an optional string [v]: [v] is falsy when it is
    [undefined] or the empty string. *)
Definition and_string {A} (v : JsVal) (k : string -> JsExp A) : JsExp A :=
  match v with
  | Some s => if String.eqb s "" then Falsy else k s
  | None => Falsy
  end.

(** [v && k], for an optional boolean [v]. *)
Definition and_bool {A} (v : option bool) (k : JsExp A) : JsExp A :=
  match v with
  | Some true => k
  | Some false | None => Falsy
  end.

(** [conditional] of [@silverhand/essentials]: the value when it is truthy,
    [undefined] otherwise. *)
Definition conditional {A} (e : JsExp A) : option A :=
  match e with
  | Truthy a => Some a
  | Falsy => None
  end.

(** [{ ...o, ...v }] where [v] may be [undefined]: spreading [undefined]
    adds no property. *)
Definition spread_optional (o : JsObject) (v : option JsObject) : JsObject :=
  match v with
  | Some p => spread o p
  | None => o
  end.

(** The value of an optional string claim when it is truthy; what a field
    guarded by [v && ...] ends up holding. *)
Definition truthy_string (v : JsVal) : JsVal :=
  match v with
  | Some s => if String.eqb s "" then None else Some s
  | None => None
  end.

(** The value of a contact claim when it is truthy and its verified flag
    is [true]. *)
Definition verified_string (v : JsVal) (verified : option bool) : JsVal :=
  match verified with
  | Some true => truthy_string v
  | Some false | None => None
  end.

(** *** Objects with an observable property order *)

(** An object as the list of its properties in insertion order; a value
    may be [undefined]. *)
Abbreviation JsRecord := (list (string * JsVal)).

(** [o[k] = v]: an existing property keeps its place, a new one goes last. *)
Fixpoint set_property (k : string) (v : JsVal) (o : JsRecord) : JsRecord :=
  match o with
  | [] => [(k, v)]
  | (k', v') :: o' =>
      if String.eqb k' k then (k', v) :: o' else (k', v') :: set_property k v o'
  end.

(** [{ ...o, ...p }] on ordered objects. *)
Definition spread_record (o p : JsRecord) : JsRecord :=
  fold_left (fun acc kv => set_property kv.1 kv.2 acc) p o.

(** The members of an object literal: [k: v] and [...o]. *)
Inductive PropertyDefinition : Type :=
| Property (k : string) (v : JsVal)
| SpreadElement (o : JsRecord).

Definition object_literal (members : list PropertyDefinition) : JsRecord :=
  fold_left
    (fun acc d =>
       match d with
       | Property k v => set_property k v acc
       | SpreadElement o => spread_record acc o
       end)
    members [].

(** *** [snakecase-keys] *)

Definition is_upper (c : ascii) : bool :=
  (65 <=? nat_of_ascii c)%nat && (nat_of_ascii c <=? 90)%nat.

Definition is_lower (c : ascii) : bool :=
  (97 <=? nat_of_ascii c)%nat && (nat_of_ascii c <=? 122)%nat.

Definition is_digit (c : ascii) : bool :=
  (48 <=? nat_of_ascii c)%nat && (nat_of_ascii c <=? 57)%nat.

Definition to_lower (c : ascii) : ascii :=
  if is_upper c then ascii_of_nat (nat_of_ascii c + 32) else c.

(** The snake-case transform of a camel-case name made of letters and
    digits: a separator goes between a lower-case letter or digit and the
    capital that follows it, and every letter is lower-cased. [prev] is the
    character before [s]. *)
Fixpoint snake_from (prev : option ascii) (s : string) : string :=
  match s with
  | EmptyString => EmptyString
  | String c s' =>
      let rest := String (to_lower c) (snake_from (Some c) s') in
      match prev with
      | Some p =>
          if is_upper c && (is_lower p || is_digit p)
          then String "_" rest else rest
      | None => rest
      end
  end.

Definition snakeCase (s : string) : string := snake_from None s.

(** [snakecaseKeys(o)]: a new object with every key renamed, values (here
    strings or [undefined]) kept. *)
Definition snakecaseKeys (o : JsRecord) : JsRecord :=
  fold_left (fun acc kv => set_property (snakeCase kv.1) kv.2 acc) o [].

(** *** [URLSearchParams] *)

(** [new URLSearchParams(record)]: the name-value pairs of the record in
    order, each value converted to a string. *)
Definition URLSearchParams (init : JsRecord) : list (string * string) :=
  map (fun kv => (kv.1, js_to_string kv.2)) init.

(** Bytes that the [application/x-www-form-urlencoded] serializer leaves
    as they are: ASCII letters and digits, [*], [-], [.] and [_]. *)
Definition urlencoded_safe (c : ascii) : bool :=
  is_upper c || is_lower c || is_digit c
  || Ascii.eqb c "*" || Ascii.eqb c "-" || Ascii.eqb c "." || Ascii.eqb c "_".

Definition hex_digit (n : nat) : ascii :=
  match String.get n "0123456789ABCDEF" with
  | Some d => d
  | None => "0"%char
  end.

Definition percent_encode (c : ascii) : string :=
  String "%" (String (hex_digit (nat_of_ascii c / 16))
                (String (hex_digit (nat_of_ascii c mod 16)) EmptyString)).

(** The serializer on one byte: a space becomes [+], a safe byte stays,
    any other byte is percent-encoded. *)
Definition urlencode_byte (c : ascii) : string :=
  if Ascii.eqb c " " then "+"
  else if urlencoded_safe c then String c EmptyString
  else percent_encode c.

Fixpoint urlencode (s : string) : string :=
  match s with
  | EmptyString => EmptyString
  | String c s' => urlencode_byte c +:+ urlencode s'
  end.

(** One name-value pair of the serialization. *)
Definition urlencode_pair (kv : string * string) : string :=
  urlencode kv.1 +:+ "=" +:+ urlencode kv.2.

(** [params.toString()]. *)
Definition toString (params : list (string * string)) : string :=
  String.concat "&" (map urlencode_pair params).

(** *** Reading a query string back

    The [application/x-www-form-urlencoded] parser that [URLSearchParams]
    applies to a query string: split at [&], skip empty sequences, split
    each at its first [=], turn [+] into a space and percent-decode. *)

Definition plus_to_space (c : ascii) : ascii :=
  if Ascii.eqb c "+" then " "%char else c.

Fixpoint map_string (f : ascii -> ascii) (s : string) : string :=
  match s with
  | EmptyString => EmptyString
  | String c s' => String (f c) (map_string f s')
  end.

Definition hex_value (c : ascii) : option nat :=
  if is_digit c then Some (nat_of_ascii c - 48)
  else if (65 <=? nat_of_ascii c)%nat && (nat_of_ascii c <=? 70)%nat
       then Some (nat_of_ascii c - 55)
  else if (97 <=? nat_of_ascii c)%nat && (nat_of_ascii c <=? 102)%nat
       then Some (nat_of_ascii c - 87)
  else None.

Fixpoint percent_decode (s : string) : string :=
  match s with
  | EmptyString => EmptyString
  | String c s' =>
      let keep := String c (percent_decode s') in
      if Ascii.eqb c "%" then
        match s' with
        | String h (String l s'') =>
            match hex_value h, hex_value l with
            | Some a, Some b =>
                String (ascii_of_nat (16 * a + b)) (percent_decode s'')
            | _, _ => keep
            end
        | _ => keep
        end
      else keep
  end.

Definition urldecode (s : string) : string :=
  percent_decode (map_string plus_to_space s).

Fixpoint split_on (sep : ascii) (s : string) : list string :=
  match s with
  | EmptyString => [EmptyString]
  | String c s' =>
      if Ascii.eqb c sep then EmptyString :: split_on sep s'
      else match split_on sep s' with
           | h :: t => String c h :: t
           | [] => [String c EmptyString]
           end
  end.

Fixpoint split_first (sep : ascii) (s : string) : string * string :=
  match s with
  | EmptyString => (EmptyString, EmptyString)
  | String c s' =>
      if Ascii.eqb c sep then (EmptyString, s')
      else let p := split_first sep s' in (String c p.1, p.2)
  end.

(** The parser on one non-empty sequence of the query string. *)
Definition parse_sequence (sequence : string) : string * string :=
  let p := split_first "=" sequence in (urldecode p.1, urldecode p.2).

Definition parse_query (query : string) : list (string * string) :=
  omap (fun sequence =>
          if String.eqb sequence "" then None
          else Some (parse_sequence sequence))
       (split_on "&" query).

Definition searchParams_get (name : string) (params : list (string * string))
  : JsVal :=
  snd <$> List.find (fun kv => String.eqb kv.1 name) params.

(** Does the byte [c] occur in [s]? *)
Fixpoint occurs (c : ascii) (s : string) : bool :=
  match s with
  | EmptyString => false
  | String c' s' => Ascii.eqb c' c || occurs c s'
  end.

(** Does [needle] occur in [haystack] as a substring? *)
Fixpoint contains (needle haystack : string) : bool :=
  String.prefix needle haystack ||
  match haystack with
  | EmptyString => false
  | String _ rest => contains needle rest
  end.

(** ** Errors *)

(** The codes of [ConnectorError]: [NotImplemented], thrown by the
    connector itself, and the codes that its collaborators throw. *)
Inductive ConnectorErrorCodes : Type :=
| General
| NotImplemented
| InvalidConfig
| InvalidAuthCode
| InvalidAccessToken
| InvalidIdToken.

Inductive result (A : Type) : Type :=
| Ok (a : A)
| Throw (e : ConnectorErrorCodes).
Arguments Ok {A} a.
Arguments Throw {A} e.

(** ** Data model *)

(** The per-flow record handed to the session store:
    [{ nonce, redirectUri, connectorId, state }]. *)
Record SingleSignOnConnectorSession : Type := {
  nonce : string;
  redirectUri : string;
  connectorId : string;
  state : string;
}.

(** The claims of a decoded identity token: those that [getUserInfo] reads
    ([sub] to [phone_verified]) and those that the validation checks
    (issuer, audience, expiration and nonce). An optional claim is [None]
    when the token does not carry it. *)
Record IdTokenClaims : Type := {
  sub : string;
  name : JsVal;
  picture : JsVal;
  email : JsVal;
  email_verified : option bool;
  phone : JsVal;
  phone_verified : option bool;
  iss : string;
  aud : list string;
  exp : Z;
  nonce_claim : JsVal;
}.

(** The response of the token endpoint, as far as the connector reads it. *)
Record TokenResponse : Type := { idToken : string }.

(** ** The world outside the connector *)

(** One entry per call that leaves the connector: the three kinds of
    request to the provider and the call of the session-persistence
    callback. *)
Inductive Event : Type :=
| DiscoveryFetch (issuer : JsVal)
| SessionStore (session : SingleSignOnConnectorSession)
| TokenExchange (oidcConfig : JsObject) (data : JsObject) (redirectUri : string)
| KeySetFetch (jwksUri : JsVal).

Record World : Type := {
  events : list Event;
  drawn : nat;
}.

(** The external collaborators: the functions of [./utils.js] that do the
    HTTP requests, the JSON Web Token library, the clock and the random
    source behind [generateStandardId]. *)
Record Env : Type := {
  discovery : JsVal -> result JsObject;
  tokenEndpoint : JsObject -> JsObject -> string -> result TokenResponse;
  jwtVerify : string -> JsVal -> option IdTokenClaims;
  currentTime : Z;
  randomId : nat -> string;
}.

(** ** The monad of [async] methods *)

Definition M (A : Type) : Type := World -> result A * World.

Definition ret {A} (a : A) : M A := fun w => (Ok a, w).

Definition throw {A} (e : ConnectorErrorCodes) : M A := fun w => (Throw e, w).

Definition bind {A B} (m : M A) (k : A -> M B) : M B :=
  fun w =>
    match m w with
    | (Ok a, w') => k a w'
    | (Throw e, w') => (Throw e, w')
    end.

Notation "'let*' x ':=' m 'in' k" := (bind m (fun x => k))
  (at level 10, x name, m at level 100, k at level 200).

Definition emit (ev : Event) : M unit :=
  fun w => (Ok tt, {| events := events w ++ [ev]; drawn := drawn w |}).

Definition lift {A} (r : result A) : M A := fun w => (r, w).

(** [assert(value, error)] of [@silverhand/essentials], for a value that
    may be [undefined]: throws [error] unless the value is truthy. *)
Definition assert {A} (value : option A) (error : ConnectorErrorCodes) : M A :=
  match value with
  | Some a => ret a
  | None => throw error
  end.

(** The same for a boolean condition. *)
Definition assert_true (value : bool) (error : ConnectorErrorCodes) : M unit :=
  if value then ret tt else throw error.

(** The injected session-persistence callback: it may succeed or throw. *)
Definition CreateSingleSignOnSession : Type :=
  SingleSignOnConnectorSession -> result unit.

Section Connector.

Variable env : Env.

(** *** Calls to the collaborators *)

(** Modelled from the spec: [fetchOidcConfig] is defined in [./utils.js],
    which is not among the sources. Section 4.1: each invocation makes one
    outbound request for the metadata document published under the issuer
    and gives the document, or fails when it is unreachable, malformed or
    lacks a required endpoint. The outcome is the collaborator's
    ([discovery]); the request is logged. *)
Definition fetchOidcConfig (issuer : JsVal) : M JsObject :=
  let* _ := emit (DiscoveryFetch issuer) in
  lift (discovery env issuer).

(** Modelled from the spec: [fetchToken] is defined in [./utils.js], which
    is not among the sources. Section 4.3: the authorization-code exchange
    against the token endpoint, from the resolved configuration, the raw
    callback payload and the redirect URI; it gives the identity token or
    fails. The outcome is the collaborator's ([tokenEndpoint]); the request
    is logged with the redirect URI it carries. *)
Definition fetchToken (oidcConfig data : JsObject) (redirectUri : string)
  : M TokenResponse :=
  let* _ := emit (TokenExchange oidcConfig data redirectUri) in
  lift (tokenEndpoint env oidcConfig data redirectUri).

(** Modelled from the spec: [generateStandardId] comes from
    [@logto/shared], which is not among the sources. Section 4.2 asks for a
    random nonce per call: each call takes the next identifier of the
    random source [randomId]. *)
Definition generateStandardId : M string :=
  fun w => (Ok (randomId env (drawn w)),
            {| events := events w; drawn := S (drawn w) |}).

(** [await setSession(session)]: the call is logged, its outcome is the
    callback's. *)
Definition callSetSession (setSession : CreateSingleSignOnSession)
    (session : SingleSignOnConnectorSession) : M unit :=
  let* _ := emit (SessionStore session) in
  lift (setSession session).

(** *** The class *)

Record OidcConnector : Type := { config : JsObject }.

(** [get issuer()]. *)
Definition issuer (self : OidcConnector) : JsVal := config self !! "issuer".

(** [getOidcConfig()]. *)
Definition getOidcConfig (self : OidcConnector) : M JsObject :=
  let issuer := config self !! "issuer" in
  let* oidcConfig := fetchOidcConfig issuer in
  ret (spread (config self) oidcConfig).

(** [getAuthorizationUrl({ state, redirectUri, connectorId }, setSession)];
    [setSession] is [None] when the caller passes no callback. *)
Definition getAuthorizationUrl (self : OidcConnector)
    (state redirectUri connectorId : string)
    (setSession : option CreateSingleSignOnSession) : M string :=
  let* setSession := assert setSession NotImplemented in
  let* oidcConfig := getOidcConfig self in
  let* nonce := generateStandardId in
  let* _ := callSetSession setSession
              {| nonce := nonce; redirectUri := redirectUri;
                 connectorId := connectorId; state := state |} in
  let queryParameters :=
    URLSearchParams
      (object_literal
         [ Property "state" (Some state);
           Property "nonce" (Some nonce);
           SpreadElement
             (snakecaseKeys
                (object_literal
                   [ Property "clientId" (oidcConfig !! "clientId");
                     Property "responseType" (Some "code");
                     Property "redirectUri" (Some redirectUri) ]));
           Property "scope" (oidcConfig !! "scope") ]) in
  ret (js_to_string (oidcConfig !! "authorizationEndpoint")
       +:+ "?" +:+ toString queryParameters).

(** Modelled from the spec: [getIdTokenClaims] is defined in [./utils.js],
    which is not among the sources. Section 4.4 of the specification gives
    its contract: from the identity token, the resolved configuration and
    the nonce of the flow session, it (1) verifies the signature with the
    provider's published keys, fetched from the key-set endpoint, then
    checks that (2) the issuer claim equals the configured issuer, (3) the
    audience claim contains the client identifier, (4) the current time is
    before the expiration and (5) the nonce claim equals the stored nonce;
    the first step that fails ends the validation with [InvalidIdToken],
    and when all hold the decoded claims are returned. *)
Definition getIdTokenClaims (idToken : string) (oidcConfig : JsObject)
    (nonce : string) : M IdTokenClaims :=
  let jwksUri := oidcConfig !! "jwksUri" in
  let* _ := emit (KeySetFetch jwksUri) in
  let* claims := assert (jwtVerify env idToken jwksUri) InvalidIdToken in
  let* _ := assert_true
              (bool_decide (Some (iss claims) = oidcConfig !! "issuer"))
              InvalidIdToken in
  let* _ := assert_true
              (match oidcConfig !! "clientId" with
               | Some clientId => bool_decide (clientId ∈ aud claims)
               | None => false
               end)
              InvalidIdToken in
  let* _ := assert_true (currentTime env <? exp claims)%Z InvalidIdToken in
  let* _ := assert_true
              (bool_decide (nonce_claim claims = Some nonce))
              InvalidIdToken in
  ret claims.

(** The object literal that [getUserInfo] returns, from the claims that
    [getIdTokenClaims] gave:
    [{ id: sub, ...conditional(name && { name }), ... }]. *)
Definition userInfoOfClaims (claims : IdTokenClaims) : JsObject :=
  fold_left spread_optional
    [ conditional (and_string (name claims)
                     (fun name => Truthy {[ "name" := name ]}));
      conditional (and_string (picture claims)
                     (fun picture => Truthy {[ "avatar" := picture ]}));
      conditional (and_string (email claims)
                     (fun email =>
                        and_bool (email_verified claims)
                          (Truthy {[ "email" := email ]})));
      conditional (and_string (phone claims)
                     (fun phone =>
                        and_bool (phone_verified claims)
                          (Truthy {[ "phone" := phone ]}))) ]
    {[ "id" := sub claims ]}.

(** [getUserInfo(connectorSession, data)]. *)
Definition getUserInfo (self : OidcConnector)
    (connectorSession : SingleSignOnConnectorSession) (data : JsObject)
  : M JsObject :=
  let* oidcConfig := getOidcConfig self in
  let nonce := nonce connectorSession in
  let redirectUri := redirectUri connectorSession in
  let* token := fetchToken oidcConfig data redirectUri in
  let* claims := getIdTokenClaims (idToken token) oidcConfig nonce in
  ret (userInfoOfClaims claims).

End Connector.

Arguments getOidcConfig env self w : simpl never.

(** ** What a run did *)

(** The events that a run from [w] to [w'] added to the log. *)
Definition events_since (w w' : World) : list Event :=
  drop (length (events w)) (events w').

(** The redirect URIs sent to the token endpoint, in order. *)
Definition token_redirects (evs : list Event) : list string :=
  omap (fun ev =>
          match ev with
          | TokenExchange _ _ redirectUri => Some redirectUri
          | _ => None
          end) evs.

(** The sessions handed to the session store, in order. *)
Definition stored_sessions (evs : list Event)
  : list SingleSignOnConnectorSession :=
  omap (fun ev =>
          match ev with
          | SessionStore session => Some session
          | _ => None
          end) evs.

(** The name-value pairs behind the query string of the authorization
    request. *)
Definition authorization_parameters (oidcConfig : JsObject)
    (state nonce redirectUri : string) : list (string * string) :=
  [ ("state", state); ("nonce", nonce);
    ("client_id", js_to_string (oidcConfig !! "clientId"));
    ("response_type", "code");
    ("redirect_uri", redirectUri);
    ("scope", js_to_string (oidcConfig !! "scope")) ].

(** The fields of the resolved configuration that name an endpoint of the
    provider. *)
Definition endpoint_field (k : string) : Prop :=
  k = "authorizationEndpoint" \/ k = "tokenEndpoint" \/ k = "jwksUri".

(** The four checks that follow the signature verification. *)
Definition claims_accepted (env : Env) (oidcConfig : JsObject)
    (nonce : string) (claims : IdTokenClaims) : bool :=
  bool_decide (Some (iss claims) = oidcConfig !! "issuer")
  && match oidcConfig !! "clientId" with
     | Some clientId => bool_decide (clientId ∈ aud claims)
     | None => false
     end
  && (currentTime env <? exp claims)%Z
  && bool_decide (nonce_claim claims = Some nonce).

(** [claims] is the claim set that the validation of this callback
    accepted: the one decoded from the identity token that the token
    endpoint returned, with all checks passed. *)
Definition verified_claims (env : Env) (self : OidcConnector)
    (session : SingleSignOnConnectorSession) (data : JsObject)
    (claims : IdTokenClaims) : Prop :=
  exists doc token,
    discovery env (issuer self) = Ok doc /\
    tokenEndpoint env (spread (config self) doc) data (redirectUri session)
      = Ok token /\
    jwtVerify env (idToken token) (spread (config self) doc !! "jwksUri")
      = Some claims /\
    claims_accepted env (spread (config self) doc) (nonce session) claims
      = true.

(** ** Worked examples *)

Module Scenario.

(** The end-to-end scenario of the specification: issuer
    [https://idp.example/oidc], client [c1], scope
    [openid profile email]. *)
Definition connector : OidcConnector :=
  {| config := list_to_map
       [ ("clientId", "c1"); ("clientSecret", "s3cret");
         ("issuer", "https://idp.example/oidc");
         ("scope", "openid profile email") ] |}.

Definition document : JsObject :=
  list_to_map
    [ ("authorizationEndpoint", "https://idp.example/authorize");
      ("tokenEndpoint", "https://idp.example/token");
      ("jwksUri", "https://idp.example/jwks") ].

(** The claims carried by the identity token ["token-1"]. *)
Definition claims : IdTokenClaims :=
  {| sub := "u1"; name := Some "Ada"; picture := None;
     email := Some "a@b.com"; email_verified := Some true;
     phone := Some "+15550100"; phone_verified := Some false;
     iss := "https://idp.example/oidc"; aud := ["c1"]; exp := 2000;
     nonce_claim := Some "n0nce" |}.

Definition env : Env :=
  {| discovery := fun _ => Ok document;
     tokenEndpoint := fun _ _ _ => Ok {| idToken := "token-1" |};
     jwtVerify := fun idToken _ =>
       if String.eqb idToken "token-1" then Some claims else None;
     currentTime := 1000;
     randomId := fun n => if Nat.eqb n 0 then "n0nce" else "n1nce" |}.

Definition setSession : CreateSingleSignOnSession := fun _ => Ok tt.

Definition start : World := {| events := []; drawn := 0 |}.

Definition session : SingleSignOnConnectorSession :=
  {| nonce := "n0nce"; redirectUri := "https://app.example/cb";
     connectorId := "conn1"; state := "st1" |}.

Definition url : string :=
  "https://idp.example/authorize?state=st1&nonce=n0nce&client_id=c1&response_type=code&redirect_uri=https%3A%2F%2Fapp.example%2Fcb&scope=openid+profile+email".

Definition redirected : World :=
  {| events := [ DiscoveryFetch (Some "https://idp.example/oidc");
                 SessionStore session ];
     drawn := 1 |}.

(** The callback payload. *)
Definition data : JsObject :=
  list_to_map [ ("code", "code-1"); ("state", "st1") ].

(** The world after the callback of the scenario. *)
Definition called_back : World :=
  {| events :=
       [ DiscoveryFetch (Some "https://idp.example/oidc");
         SessionStore session;
         DiscoveryFetch (Some "https://idp.example/oidc");
         TokenExchange
           (spread (config connector) document)
           data "https://app.example/cb";
         KeySetFetch (Some "https://idp.example/jwks") ];
     drawn := 1 |}.

End Scenario.

Module MergeExample.

(** A static configuration and a discovery document that both give a
    scope and both give the endpoints. *)
Definition merge_static : OidcConnector :=
  {| config := list_to_map
       [ ("clientId", "c1"); ("issuer", "https://idp.example/oidc");
         ("scope", "openid profile email");
         ("authorizationEndpoint", "https://static.example/authorize");
         ("tokenEndpoint", "https://static.example/token") ] |}.

Definition merge_document : JsObject :=
  list_to_map
    [ ("authorizationEndpoint", "https://idp.example/authorize");
      ("tokenEndpoint", "https://idp.example/token");
      ("scope", "openid") ].

Definition merge_env : Env :=
  {| discovery := fun _ => Ok merge_document;
     tokenEndpoint := fun _ _ _ => Throw InvalidAuthCode;
     jwtVerify := fun _ _ => None;
     currentTime := 0;
     randomId := fun _ => "n0" |}.

Definition merge_start : World := {| events := []; drawn := 0 |}.

End MergeExample.

Module EmptyContact.

(** A provider that attests an empty email address and an empty phone
    number, and sends an empty name and picture. *)
Definition empty_claims : IdTokenClaims :=
  {| sub := "u1"; name := Some ""; picture := Some "";
     email := Some ""; email_verified := Some true;
     phone := Some ""; phone_verified := Some true;
     iss := "https://idp.example/oidc"; aud := ["c1"]; exp := 2000;
     nonce_claim := Some "n0nce" |}.

Definition empty_env : Env :=
  {| discovery := discovery Scenario.env;
     tokenEndpoint := tokenEndpoint Scenario.env;
     jwtVerify := fun _ _ => Some empty_claims;
     currentTime := 1000;
     randomId := randomId Scenario.env |}.

End EmptyContact.

Module Replay.



End Replay.

(** ** Further observations and examples *)

(** The issuers for which a discovery document was requested, in order. *)
Definition discovery_requests (evs : list Event) : list JsVal :=
  omap (fun ev =>
          match ev with
          | DiscoveryFetch issuer => Some issuer
          | _ => None
          end) evs.

(** The key-set locations that were fetched, in order. *)
Definition key_set_fetches (evs : list Event) : list JsVal :=
  omap (fun ev =>
          match ev with
          | KeySetFetch jwksUri => Some jwksUri
          | _ => None
          end) evs.

(** Does every byte of [s] satisfy [p]? *)
Fixpoint string_forall (p : ascii -> bool) (s : string) : bool :=
  match s with
  | EmptyString => true
  | String c s' => p c && string_forall p s'
  end.

(** The bytes that a serialized query string is made of: the safe bytes,
    [+] for a space, [%] of an escape, and the separators [&] and [=]. *)
Definition query_byte (c : ascii) : bool :=
  urlencoded_safe c
  || Ascii.eqb c "+" || Ascii.eqb c "%"
  || Ascii.eqb c "&" || Ascii.eqb c "=".

(** The names of the properties that a user info object may have. *)
Definition userInfo_fields : list string :=
  [ "id"; "name"; "avatar"; "email"; "phone" ].

Module Outage.

(** The provider's discovery document cannot be fetched. *)
Definition outage_env : Env :=
  {| discovery := fun _ => Throw InvalidConfig;
     tokenEndpoint := tokenEndpoint Scenario.env;
     jwtVerify := jwtVerify Scenario.env;
     currentTime := 1000;
     randomId := randomId Scenario.env |}.

(** The world after a call that stopped at the discovery request. *)
Definition outage_world : World :=
  {| events := [ DiscoveryFetch (Some "https://idp.example/oidc") ];
     drawn := 0 |}.

End Outage.

Module Rejected.

(** The provider rejects the authorization code. *)
Definition rejecting_env : Env :=
  {| discovery := discovery Scenario.env;
     tokenEndpoint := fun _ _ _ => Throw InvalidAuthCode;
     jwtVerify := jwtVerify Scenario.env;
     currentTime := 1000;
     randomId := randomId Scenario.env |}.

(** A session store that is out of order. *)
Definition failing_setSession : CreateSingleSignOnSession :=
  fun _ => Throw General.

End Rejected.

Module Unscoped.



End Unscoped.

(** The query of a URL string, as a URL parser delimits it: the text after
    the first [?] and before the first [#]; [None] when no [?] comes before
    the first [#]. *)
Definition url_query (url : string) : option string :=
  let before_fragment := (split_first "#" url).1 in
  if occurs "?" before_fragment
  then Some (split_first "?" before_fragment).2
  else None.

Module IssuerOverride.




End IssuerOverride.

Module OwnQuery.

(** A provider whose authorization endpoint has a query of its own. *)
Definition own_query_document : JsObject :=
  list_to_map
    [ ("authorizationEndpoint", "https://idp.example/authorize?p=policy");
      ("tokenEndpoint", "https://idp.example/token");
      ("jwksUri", "https://idp.example/jwks") ].

Definition own_query_env : Env :=
  {| discovery := fun _ => Ok own_query_document;
     tokenEndpoint := tokenEndpoint Scenario.env;
     jwtVerify := jwtVerify Scenario.env;
     currentTime := 1000;
     randomId := randomId Scenario.env |}.

Definition own_query_url : string :=
  "https://idp.example/authorize?p=policy?state=st1&nonce=n0nce&client_id=c1&response_type=code&redirect_uri=https%3A%2F%2Fapp.example%2Fcb&scope=openid+profile+email".

End OwnQuery.

Module PinnedNonce.




End PinnedNonce.

(** * Properties *)

(** ** Strings and query strings *)

Lemma append_cons c s t : String c s +:+ t = String c (s +:+ t).
Proof. reflexivity. Qed.

Lemma append_nil s : "" +:+ s = s.
Proof. reflexivity. Qed.

Lemma string_app_assoc (a b c : string) : (a +:+ b) +:+ c = a +:+ b +:+ c.
Proof. induction a as [|x a IH]; [done|]. by rewrite !append_cons, IH. Qed.

Lemma occurs_append c s t : occurs c (s +:+ t) = occurs c s || occurs c t.
Proof.
  induction s as [|x s IH]; [done|].
  rewrite append_cons; simpl. by rewrite IH, orb_assoc.
Qed.

Lemma urlencode_byte_plain c :
  occurs "&" (urlencode_byte c) = false /\ occurs "=" (urlencode_byte c) = false.
Proof. destruct c as [[] [] [] [] [] [] [] []]; split; reflexivity. Qed.

Lemma urlencode_plain s :
  occurs "&" (urlencode s) = false /\ occurs "=" (urlencode s) = false.
Proof.
  induction s as [|c s [IH1 IH2]]; [done|]. simpl.
  destruct (urlencode_byte_plain c) as [H1 H2].
  by rewrite !occurs_append, H1, H2, IH1, IH2.
Qed.

Lemma urldecode_byte c t :
  urldecode (urlencode_byte c +:+ t) = String c (urldecode t).
Proof. destruct c as [[] [] [] [] [] [] [] []]; reflexivity. Qed.

Lemma urldecode_urlencode s : urldecode (urlencode s) = s.
Proof.
  induction s as [|c s IH]; [done|]. simpl.
  by rewrite urldecode_byte, IH.
Qed.

Lemma split_on_plain sep s : occurs sep s = false -> split_on sep s = [s].
Proof.
  induction s as [|c s IH]; [done|]. simpl.
  destruct (Ascii.eqb c sep); [done|]. simpl. intros H. by rewrite IH.
Qed.

Lemma split_on_append sep a b :
  occurs sep a = false ->
  split_on sep (a +:+ String sep b) = a :: split_on sep b.
Proof.
  induction a as [|c a IH].
  - intros _. rewrite append_nil. simpl. by rewrite Ascii.eqb_refl.
  - rewrite append_cons. simpl.
    destruct (Ascii.eqb c sep); [done|]. simpl. intros H. by rewrite IH.
Qed.

Lemma split_first_append sep a b :
  occurs sep a = false -> split_first sep (a +:+ String sep b) = (a, b).
Proof.
  induction a as [|c a IH].
  - intros _. rewrite append_nil. simpl. by rewrite Ascii.eqb_refl.
  - rewrite append_cons. simpl.
    destruct (Ascii.eqb c sep); [done|]. simpl. intros H. by rewrite IH.
Qed.

Lemma urlencode_pair_plain kv : occurs "&" (urlencode_pair kv) = false.
Proof.
  unfold urlencode_pair. rewrite !occurs_append.
  destruct (urlencode_plain kv.1) as [-> _].
  by destruct (urlencode_plain kv.2) as [-> _].
Qed.

Lemma urlencode_pair_nonempty kv : String.eqb (urlencode_pair kv) "" = false.
Proof.
  unfold urlencode_pair. by destruct (urlencode kv.1).
Qed.

Lemma toString_cons kv params :
  toString (kv :: params) =
    match params with
    | [] => urlencode_pair kv
    | _ :: _ => urlencode_pair kv +:+ String "&" (toString params)
    end.
Proof. by destruct params. Qed.

Lemma split_first_urlencode_pair kv :
  split_first "=" (urlencode_pair kv) = (urlencode kv.1, urlencode kv.2).
Proof.
  change (urlencode_pair kv)
    with (urlencode kv.1 +:+ String "=" (urlencode kv.2)).
  apply split_first_append, urlencode_plain.
Qed.

Lemma parse_sequence_urlencode_pair kv :
  parse_sequence (urlencode_pair kv) = kv.
Proof.
  unfold parse_sequence. rewrite split_first_urlencode_pair; simpl.
  rewrite !urldecode_urlencode. by destruct kv.
Qed.

Lemma parse_query_single kv : parse_query (urlencode_pair kv) = [kv].
Proof.
  unfold parse_query.
  rewrite split_on_plain by apply urlencode_pair_plain.
  cbn [omap list_omap].
  by rewrite urlencode_pair_nonempty, parse_sequence_urlencode_pair.
Qed.

Lemma parse_query_cons kv rest :
  parse_query (urlencode_pair kv +:+ String "&" rest) = kv :: parse_query rest.
Proof.
  unfold parse_query.
  rewrite split_on_append by apply urlencode_pair_plain.
  cbn [omap list_omap].
  by rewrite urlencode_pair_nonempty, parse_sequence_urlencode_pair.
Qed.

(** Parsing what [toString] wrote gives the name-value pairs back. *)
Lemma parse_query_toString params : parse_query (toString params) = params.
Proof.
  induction params as [|kv params IH]; [done|].
  rewrite toString_cons. destruct params as [|kv' params].
  - apply parse_query_single.
  - by rewrite parse_query_cons, IH.
Qed.

Lemma split_first_plain sep s :
  occurs sep s = false -> split_first sep s = (s, "").
Proof.
  induction s as [|c s IH]; [done|]. simpl.
  destruct (Ascii.eqb c sep); [done|]. simpl. intros H. by rewrite IH.
Qed.

Lemma urlencode_byte_no_fragment c : occurs "#" (urlencode_byte c) = false.
Proof. destruct c as [[] [] [] [] [] [] [] []]; reflexivity. Qed.

Lemma urlencode_no_fragment s : occurs "#" (urlencode s) = false.
Proof.
  induction s as [|c s IH]; [done|]. simpl.
  by rewrite occurs_append, urlencode_byte_no_fragment, IH.
Qed.

(** A serialized query string has no [#] in it. *)
Lemma toString_no_fragment params : occurs "#" (toString params) = false.
Proof.
  assert (Hpair : forall kv, occurs "#" (urlencode_pair kv) = false).
  { intros kv. unfold urlencode_pair.
    by rewrite !occurs_append, !urlencode_no_fragment. }
  induction params as [|kv params IH]; [done|].
  rewrite toString_cons. destruct params as [|kv' params]; [apply Hpair|].
  rewrite occurs_append, Hpair. simpl. by rewrite IH.
Qed.

(** The query of [endpoint?query], for an endpoint without a query or a
    fragment of its own, is [query]. *)
Lemma url_query_of_plain_endpoint endpoint query :
  occurs "?" endpoint = false ->
  occurs "#" endpoint = false ->
  occurs "#" query = false ->
  url_query (endpoint +:+ "?" +:+ query) = Some query.
Proof.
  intros Hquery Hfragment Hclean. unfold url_query.
  change (endpoint +:+ "?" +:+ query) with (endpoint +:+ String "?" query).
  rewrite (split_first_plain "#")
    by (rewrite occurs_append, Hfragment; simpl; by rewrite Hclean).
  simpl. rewrite occurs_append, Hquery. simpl.
  by rewrite split_first_append.
Qed.

(** ** Running the methods *)

(** A thrown error skips the rest of the method. *)
Lemma bind_throw {A B} (e : ConnectorErrorCodes) (k : A -> M B) :
  bind (throw e) k = throw e.
Proof. reflexivity. Qed.

Lemma bind_ret {A B} (a : A) (k : A -> M B) : bind (ret a) k = k a.
Proof. reflexivity. Qed.

Lemma events_since_refl w : events_since w w = [].
Proof. unfold events_since. by rewrite drop_all. Qed.

Lemma events_since_app w evs d :
  events_since w {| events := events w ++ evs; drawn := d |} = evs.
Proof. unfold events_since; simpl. by rewrite drop_app_length. Qed.

(** One run of [getOidcConfig]: a single discovery request, then the
    merge. *)
Lemma getOidcConfig_run env self w :
  getOidcConfig env self w =
    (match discovery env (issuer self) with
     | Ok doc => Ok (spread (config self) doc)
     | Throw e => Throw e
     end,
     {| events := events w ++ [DiscoveryFetch (issuer self)];
        drawn := drawn w |}).
Proof.
  unfold getOidcConfig, fetchOidcConfig, bind, emit, lift, ret, issuer; simpl.
  by destruct (discovery env (config self !! "issuer")).
Qed.

Lemma lookup_spread (a b : JsObject) k :
  spread a b !! k = match b !! k with Some v => Some v | None => a !! k end.
Proof.
  unfold spread. rewrite lookup_union.
  destruct (b !! k), (a !! k); done.
Qed.

(** C8. For every discovery document that gives the authorization and the
    token endpoint, the resolved configuration returned by [getOidcConfig]
    has exactly these discovered endpoints, whatever the static
    configuration says about them. *)
Theorem getOidcConfig_endpoints_are_discovered
    env self w doc authorizationEndpoint tokenEndpoint :
  discovery env (issuer self) = Ok doc ->
  doc !! "authorizationEndpoint" = Some authorizationEndpoint ->
  doc !! "tokenEndpoint" = Some tokenEndpoint ->
  exists resolved w',
    getOidcConfig env self w = (Ok resolved, w') /\
    resolved !! "authorizationEndpoint" = Some authorizationEndpoint /\
    resolved !! "tokenEndpoint" = Some tokenEndpoint.
Proof.
  intros Hdoc Ha Ht. rewrite getOidcConfig_run, Hdoc.
  eexists _, _. split; [reflexivity|].
  by rewrite !lookup_spread, Ha, Ht.
Qed.

Lemma getOidcConfig_endpoints_are_discovered_witness :
  config MergeExample.merge_static !! "authorizationEndpoint"
    = Some "https://static.example/authorize" /\
  exists resolved w',
    getOidcConfig MergeExample.merge_env MergeExample.merge_static
      MergeExample.merge_start
      = (Ok resolved, w') /\
    resolved !! "authorizationEndpoint" = Some "https://idp.example/authorize" /\
    resolved !! "tokenEndpoint" = Some "https://idp.example/token".
Proof.
  split; [reflexivity|].
  apply (getOidcConfig_endpoints_are_discovered
           MergeExample.merge_env MergeExample.merge_static
           MergeExample.merge_start
           MergeExample.merge_document); reflexivity.
Defined.

(** C7, as the code has it. For every field, the resolved configuration
    carries the discovered value when the discovery document specifies the
    field, endpoint or not, and the static value only when the document
    does not specify it. *)
Theorem getOidcConfig_discovered_value_wins env self w doc :
  discovery env (issuer self) = Ok doc ->
  exists resolved w',
    getOidcConfig env self w = (Ok resolved, w') /\
    (forall k v, doc !! k = Some v -> resolved !! k = Some v) /\
    (forall k, doc !! k = None -> resolved !! k = config self !! k).
Proof.
  intros Hdoc. rewrite getOidcConfig_run, Hdoc.
  eexists _, _. split; [reflexivity|].
  split; intros k; [intros v|]; intros Hk; by rewrite lookup_spread, Hk.
Qed.

Lemma getOidcConfig_discovered_value_wins_witness :
  exists resolved w',
    getOidcConfig MergeExample.merge_env MergeExample.merge_static
      MergeExample.merge_start
      = (Ok resolved, w') /\
    (forall k v, MergeExample.merge_document !! k = Some v ->
                 resolved !! k = Some v) /\
    (forall k, MergeExample.merge_document !! k = None ->
               resolved !! k = config MergeExample.merge_static !! k).
Proof.
  apply (getOidcConfig_discovered_value_wins
           MergeExample.merge_env MergeExample.merge_static
           MergeExample.merge_start
           MergeExample.merge_document).
  reflexivity.
Defined.

(** C7, as the specification words it, fails: [scope] is not an endpoint
    field and both sides specify it, yet the resolved configuration has the
    discovered scope, not the static one. *)
Lemma getOidcConfig_static_value_does_not_win :
  exists resolved w',
    getOidcConfig MergeExample.merge_env MergeExample.merge_static
      MergeExample.merge_start
      = (Ok resolved, w') /\
    ~ endpoint_field "scope" /\
    config MergeExample.merge_static !! "scope"
      = Some "openid profile email" /\
    MergeExample.merge_document !! "scope" = Some "openid" /\
    resolved !! "scope" = Some "openid" /\
    resolved !! "scope" <> config MergeExample.merge_static !! "scope".
Proof.
  eexists _, _. split; [reflexivity|].
  split; [intros [?|[?|?]]; discriminate|].
  repeat split; try reflexivity.
  vm_compute. discriminate.
Qed.

(** ** Authorization request *)

(** C3. Without a session-persistence callback [getAuthorizationUrl] throws
    [NotImplemented] and leaves the world as it was: the run adds no event
    to the log (no discovery request, no other request, no session stored)
    and draws no identifier. *)
Theorem getAuthorizationUrl_without_setSession
    env self state redirectUri connectorId w :
  getAuthorizationUrl env self state redirectUri connectorId None w
    = (Throw NotImplemented, w) /\
  events_since w
    (getAuthorizationUrl env self state redirectUri connectorId None w).2
    = [].
Proof.
  split.
  - unfold getAuthorizationUrl, assert. by rewrite bind_throw.
  - exact (events_since_refl w).
Qed.

Lemma getAuthorizationUrl_run env self st ru cid setSession w :
  getAuthorizationUrl env self st ru cid (Some setSession) w =
    match discovery env (issuer self) with
    | Throw e =>
        (Throw e,
         {| events := events w ++ [DiscoveryFetch (issuer self)];
            drawn := drawn w |})
    | Ok doc =>
        let oidcConfig := spread (config self) doc in
        let n := randomId env (drawn w) in
        let session := {| nonce := n; redirectUri := ru;
                          connectorId := cid; state := st |} in
        (match setSession session with
         | Throw e => Throw e
         | Ok _ =>
             Ok (js_to_string (oidcConfig !! "authorizationEndpoint")
                 +:+ "?"
                 +:+ toString (authorization_parameters oidcConfig st n ru))
         end,
         {| events := events w ++ [DiscoveryFetch (issuer self);
                                   SessionStore session];
            drawn := S (drawn w) |})
    end.
Proof.
  unfold getAuthorizationUrl, bind, assert, ret.
  rewrite getOidcConfig_run.
  destruct (discovery env (issuer self)) as [doc|e]; [|done].
  unfold generateStandardId, callSetSession, bind, emit, lift; simpl.
  rewrite <- app_assoc; simpl.
  by destruct (setSession _) as [[]|e].
Qed.

Example scenario_url :
  getAuthorizationUrl Scenario.env Scenario.connector
    "st1" "https://app.example/cb" "conn1"
    (Some Scenario.setSession) Scenario.start
  = (Ok Scenario.url, Scenario.redirected).
Proof. reflexivity. Qed.

(** C5, as the code has it. For every successful call whose authorization
    endpoint has no query and no fragment of its own, the returned URL is
    rooted at the authorization endpoint of the resolved configuration (the
    discovered one, when the discovery document gives it) and its query
    string carries exactly the parameters [state], [nonce], [client_id],
    [response_type=code], [redirect_uri] and [scope], in this order, under
    their snake-cased names, each value in the
    [application/x-www-form-urlencoded] form that [URLSearchParams] writes
    (a space as [+], reserved bytes percent-encoded). *)
Theorem getAuthorizationUrl_url
    env self state redirectUri connectorId setSession w url w' doc :
  discovery env (issuer self) = Ok doc ->
  occurs "?"
    (js_to_string (spread (config self) doc !! "authorizationEndpoint"))
    = false ->
  occurs "#"
    (js_to_string (spread (config self) doc !! "authorizationEndpoint"))
    = false ->
  getAuthorizationUrl env self state redirectUri connectorId setSession w
    = (Ok url, w') ->
  exists query,
    url_query url = Some query /\
    url = js_to_string (spread (config self) doc !! "authorizationEndpoint")
          +:+ "?" +:+ query /\
    (forall endpoint,
        doc !! "authorizationEndpoint" = Some endpoint ->
        url = endpoint +:+ "?" +:+ query) /\
    query =
      "state=" +:+ urlencode state
      +:+ "&nonce=" +:+ urlencode (randomId env (drawn w))
      +:+ "&client_id="
      +:+ urlencode (js_to_string (spread (config self) doc !! "clientId"))
      +:+ "&response_type=code"
      +:+ "&redirect_uri=" +:+ urlencode redirectUri
      +:+ "&scope="
      +:+ urlencode (js_to_string (spread (config self) doc !! "scope")) /\
    parse_query query =
      [ ("state", state); ("nonce", randomId env (drawn w));
        ("client_id", js_to_string (spread (config self) doc !! "clientId"));
        ("response_type", "code");
        ("redirect_uri", redirectUri);
        ("scope", js_to_string (spread (config self) doc !! "scope")) ].
Proof.
  intros Hdoc Hquery Hfragment.
  destruct setSession as [setSession|]; [|discriminate].
  rewrite getAuthorizationUrl_run, Hdoc. cbv zeta.
  destruct (setSession _) as [[]|e]; [|discriminate].
  intros [= <- <-].
  exists (toString (authorization_parameters (spread (config self) doc)
                      state (randomId env (drawn w)) redirectUri)).
  split; [|split; [done|split; [|split]]].
  - apply url_query_of_plain_endpoint; [done..|apply toString_no_fragment].
  - intros endpoint H. by rewrite lookup_spread, H.
  - unfold toString, authorization_parameters, urlencode_pair; simpl.
    by rewrite !string_app_assoc.
  - apply parse_query_toString.
Qed.

Lemma getAuthorizationUrl_url_witness :
  exists query,
    url_query Scenario.url = Some query /\
    Scenario.url
      = js_to_string
          (spread (config Scenario.connector) Scenario.document
             !! "authorizationEndpoint")
        +:+ "?" +:+ query /\
    (forall endpoint,
        Scenario.document !! "authorizationEndpoint" = Some endpoint ->
        Scenario.url = endpoint +:+ "?" +:+ query) /\
    query =
      "state=" +:+ urlencode "st1"
      +:+ "&nonce=" +:+ urlencode "n0nce"
      +:+ "&client_id="
      +:+ urlencode
            (js_to_string
               (spread (config Scenario.connector) Scenario.document
                  !! "clientId"))
      +:+ "&response_type=code"
      +:+ "&redirect_uri=" +:+ urlencode "https://app.example/cb"
      +:+ "&scope="
      +:+ urlencode
            (js_to_string
               (spread (config Scenario.connector) Scenario.document
                  !! "scope")) /\
    parse_query query =
      [ ("state", "st1"); ("nonce", "n0nce");
        ("client_id",
         js_to_string
           (spread (config Scenario.connector) Scenario.document
              !! "clientId"));
        ("response_type", "code");
        ("redirect_uri", "https://app.example/cb");
        ("scope",
         js_to_string
           (spread (config Scenario.connector) Scenario.document
              !! "scope")) ].
Proof.
  apply (getAuthorizationUrl_url Scenario.env Scenario.connector
           "st1" "https://app.example/cb" "conn1"
           (Some Scenario.setSession) Scenario.start
           Scenario.url Scenario.redirected Scenario.document);
    reflexivity.
Defined.

(** C5, as the specification words it, fails. On its own scenario the
    returned URL writes the scope as [openid+profile+email] and the
    redirect URI percent-encoded, so it contains neither
    [scope=openid%20profile%20email] nor
    [redirect_uri=https://app.example/cb]. And with a discovered
    authorization endpoint that has a query of its own,
    [https://idp.example/authorize?p=policy], the query string of the
    returned URL has no [state] parameter: the text is appended after a
    second question mark and [state] ends up inside the value of [p]. *)
Lemma getAuthorizationUrl_scenario_wire_format :
  (getAuthorizationUrl Scenario.env Scenario.connector
     "st1" "https://app.example/cb" "conn1"
     (Some Scenario.setSession) Scenario.start
   = (Ok Scenario.url, Scenario.redirected) /\
   contains "https://idp.example/authorize?" Scenario.url = true /\
   contains "client_id=c1" Scenario.url = true /\
   contains "state=st1" Scenario.url = true /\
   contains "scope=openid%20profile%20email" Scenario.url = false /\
   contains "redirect_uri=https://app.example/cb" Scenario.url = false /\
   contains "scope=openid+profile+email" Scenario.url = true /\
   contains "redirect_uri=https%3A%2F%2Fapp.example%2Fcb" Scenario.url
     = true) /\
  (getAuthorizationUrl OwnQuery.own_query_env Scenario.connector
     "st1" "https://app.example/cb" "conn1"
     (Some Scenario.setSession) Scenario.start
   = (Ok OwnQuery.own_query_url, Scenario.redirected) /\
   exists query,
     url_query OwnQuery.own_query_url = Some query /\
     parse_query query =
       [ ("p", "policy?state=st1"); ("nonce", "n0nce"); ("client_id", "c1");
         ("response_type", "code");
         ("redirect_uri", "https://app.example/cb");
         ("scope", "openid profile email") ] /\
     searchParams_get "state" (parse_query query) = None).
Proof.
  split; [repeat split; reflexivity|].
  split; [reflexivity|].
  exists "p=policy?state=st1&nonce=n0nce&client_id=c1&response_type=code&redirect_uri=https%3A%2F%2Fapp.example%2Fcb&scope=openid+profile+email".
  repeat split; vm_compute; reflexivity.
Qed.


(** What the model says about the nonce: a successful call takes the next
    identifier of the random source and moves the source on by one, so a
    later call draws from a later position. Whether two draws differ is a
    property of the random source, not of the connector. *)
Lemma getAuthorizationUrl_draws_next_identifier
    env self state redirectUri connectorId setSession w url w' :
  getAuthorizationUrl env self state redirectUri connectorId setSession w
    = (Ok url, w') ->
  drawn w' = S (drawn w) /\
  nonce <$> stored_sessions (events_since w w') = [randomId env (drawn w)].
Proof.
  destruct setSession as [setSession|]; [|discriminate].
  rewrite getAuthorizationUrl_run.
  destruct (discovery env (issuer self)) as [doc|e]; [|discriminate].
  cbv zeta. destruct (setSession _) as [[]|e]; [|discriminate].
  intros [= <- <-]. by rewrite events_since_app.
Qed.

(** ** Callback *)

Lemma getIdTokenClaims_run env idToken oidcConfig nonce w :
  getIdTokenClaims env idToken oidcConfig nonce w =
    (match jwtVerify env idToken (oidcConfig !! "jwksUri") with
     | Some claims =>
         if claims_accepted env oidcConfig nonce claims
         then Ok claims else Throw InvalidIdToken
     | None => Throw InvalidIdToken
     end,
     {| events := events w ++ [KeySetFetch (oidcConfig !! "jwksUri")];
        drawn := drawn w |}).
Proof.
  unfold getIdTokenClaims, claims_accepted, bind, emit, assert, assert_true,
    ret, throw; simpl.
  destruct (jwtVerify env idToken (oidcConfig !! "jwksUri")) as [claims|];
    [|done].
  destruct (bool_decide (Some (iss claims) = oidcConfig !! "issuer")); [|done].
  destruct (match oidcConfig !! "clientId" with
            | Some clientId => bool_decide (clientId ∈ aud claims)
            | None => false
            end); [|done].
  destruct (currentTime env <? exp claims)%Z; [|done].
  by destruct (bool_decide (nonce_claim claims = Some nonce)).
Qed.

Lemma getUserInfo_run env self session data w :
  getUserInfo env self session data w =
    match discovery env (issuer self) with
    | Throw e =>
        (Throw e,
         {| events := events w ++ [DiscoveryFetch (issuer self)];
            drawn := drawn w |})
    | Ok doc =>
        let oidcConfig := spread (config self) doc in
        let exchange := TokenExchange oidcConfig data (redirectUri session) in
        match tokenEndpoint env oidcConfig data (redirectUri session) with
        | Throw e =>
            (Throw e,
             {| events := events w ++ [DiscoveryFetch (issuer self); exchange];
                drawn := drawn w |})
        | Ok token =>
            (match jwtVerify env (idToken token) (oidcConfig !! "jwksUri") with
             | Some claims =>
                 if claims_accepted env oidcConfig (nonce session) claims
                 then Ok (userInfoOfClaims claims) else Throw InvalidIdToken
             | None => Throw InvalidIdToken
             end,
             {| events := events w ++ [DiscoveryFetch (issuer self); exchange;
                                       KeySetFetch (oidcConfig !! "jwksUri")];
                drawn := drawn w |})
        end
    end.
Proof.
  unfold getUserInfo, bind. rewrite getOidcConfig_run.
  destruct (discovery env (issuer self)) as [doc|e]; [|done].
  unfold fetchToken, bind, emit, lift; simpl. rewrite <- app_assoc; simpl.
  destruct (tokenEndpoint env _ data _) as [token|e]; [|done].
  rewrite getIdTokenClaims_run; simpl. rewrite <- app_assoc; simpl.
  destruct (jwtVerify env _ _) as [claims|]; [|done].
  by destruct (claims_accepted env _ _ claims).
Qed.

(** A successful callback went through discovery, token exchange and the
    whole validation, and returns the mapping of the verified claims. *)
Lemma getUserInfo_Ok env self session data w userInfo w' :
  getUserInfo env self session data w = (Ok userInfo, w') ->
  exists doc token claims,
    discovery env (issuer self) = Ok doc /\
    tokenEndpoint env (spread (config self) doc) data (redirectUri session)
      = Ok token /\
    jwtVerify env (idToken token) (spread (config self) doc !! "jwksUri")
      = Some claims /\
    claims_accepted env (spread (config self) doc) (nonce session) claims
      = true /\
    userInfo = userInfoOfClaims claims.
Proof.
  rewrite getUserInfo_run.
  destruct (discovery env (issuer self)) as [doc|e]; [|discriminate].
  cbv zeta.
  destruct (tokenEndpoint env _ data _) as [token|e] eqn:Htoken;
    [|discriminate].
  destruct (jwtVerify env _ _) as [claims|] eqn:Hverify; [|discriminate].
  destruct (claims_accepted env _ _ claims) eqn:Haccepted; [|discriminate].
  intros [= <- <-]. by exists doc, token, claims.
Qed.

Lemma conditional_and_string (v : JsVal) (k : string) :
  conditional (and_string v (fun s => Truthy ({[ k := s ]} : JsObject)))
    = (fun s => {[ k := s ]}) <$> truthy_string v.
Proof.
  destruct v as [s|]; simpl; [|done]. by destruct (String.eqb s "").
Qed.

Lemma conditional_and_string_and_bool (v : JsVal) verified (k : string) :
  conditional
    (and_string v
       (fun s => and_bool verified (Truthy ({[ k := s ]} : JsObject))))
    = (fun s => {[ k := s ]}) <$> verified_string v verified.
Proof.
  destruct v as [s|], verified as [[]|]; simpl; try done;
    by destruct (String.eqb s "").
Qed.

Lemma lookup_spread_optional_field (o : JsObject) (k : string) (v : JsVal) j :
  spread_optional o ((fun s => ({[ k := s ]} : JsObject)) <$> v) !! j =
    if decide (k = j)
    then match v with Some s => Some s | None => o !! j end
    else o !! j.
Proof.
  destruct v as [s|]; simpl.
  - rewrite lookup_spread. case_decide; by simplify_map_eq.
  - by case_decide.
Qed.

Lemma userInfoOfClaims_unfold claims :
  userInfoOfClaims claims =
    spread_optional
      (spread_optional
         (spread_optional
            (spread_optional {[ "id" := sub claims ]}
               ((fun s => {[ "name" := s ]}) <$> truthy_string (name claims)))
            ((fun s => {[ "avatar" := s ]})
               <$> truthy_string (picture claims)))
         ((fun s => {[ "email" := s ]})
            <$> verified_string (email claims) (email_verified claims)))
      ((fun s => {[ "phone" := s ]})
         <$> verified_string (phone claims) (phone_verified claims)).
Proof.
  unfold userInfoOfClaims; simpl.
  by rewrite !conditional_and_string, !conditional_and_string_and_bool.
Qed.

Ltac lookup_user_info :=
  rewrite userInfoOfClaims_unfold, !lookup_spread_optional_field;
  repeat (case_decide; [discriminate || idtac | try congruence]);
  simplify_map_eq; try done.

Lemma userInfo_id claims : userInfoOfClaims claims !! "id" = Some (sub claims).
Proof. lookup_user_info. Qed.

Lemma userInfo_name claims :
  userInfoOfClaims claims !! "name" = truthy_string (name claims).
Proof. lookup_user_info. by destruct (truthy_string _). Qed.

Lemma userInfo_avatar claims :
  userInfoOfClaims claims !! "avatar" = truthy_string (picture claims).
Proof. lookup_user_info. by destruct (truthy_string _). Qed.

Lemma userInfo_email claims :
  userInfoOfClaims claims !! "email"
    = verified_string (email claims) (email_verified claims).
Proof. lookup_user_info. by destruct (verified_string _ _). Qed.

Lemma userInfo_phone claims :
  userInfoOfClaims claims !! "phone"
    = verified_string (phone claims) (phone_verified claims).
Proof. lookup_user_info. by destruct (verified_string _ _). Qed.

Lemma verified_string_Some v verified s :
  verified_string v verified = Some s <->
  v = Some s /\ s <> "" /\ verified = Some true.
Proof.
  unfold verified_string, truthy_string.
  destruct verified as [[]|], v as [x|]; try (split; [done|by intros (?&?&?)]).
  destruct (String.eqb x "") eqn:Hx.
  - apply String.eqb_eq in Hx as ->. split; [done|].
    by intros ([= <-]&?&?).
  - apply String.eqb_neq in Hx. split.
    + by intros [= <-].
    + by intros ([= <-]&?&?).
Qed.

Example scenario_callback :
  getUserInfo Scenario.env Scenario.connector Scenario.session Scenario.data
    Scenario.redirected
  = (Ok (list_to_map [("id", "u1"); ("name", "Ada"); ("email", "a@b.com")]),
     Scenario.called_back).
Proof. vm_compute. reflexivity. Qed.

(** With a verified signature and all four checks passed, the callback
    returns the mapping of the claims. *)
Lemma getUserInfo_valid_id_token env self session data w doc token claims :
  discovery env (issuer self) = Ok doc ->
  tokenEndpoint env (spread (config self) doc) data (redirectUri session)
    = Ok token ->
  jwtVerify env (idToken token) (spread (config self) doc !! "jwksUri")
    = Some claims ->
  claims_accepted env (spread (config self) doc) (nonce session) claims
    = true ->
  (getUserInfo env self session data w).1 = Ok (userInfoOfClaims claims).
Proof.
  intros Hdoc Htoken Hverify Haccepted.
  rewrite getUserInfo_run, Hdoc. cbv zeta.
  by rewrite Htoken, Hverify, Haccepted.
Qed.




(** C2, as the code has it. The user info returned by [getUserInfo] has an
    [email] field exactly when the verified claims have an email that is
    not the empty string together with [email_verified] equal to [true],
    and the field then holds that email; the same for [phone] and
    [phone_verified]. *)
Theorem getUserInfo_contact_fields env self session data w userInfo w' :
  getUserInfo env self session data w = (Ok userInfo, w') ->
  exists claims,
    verified_claims env self session data claims /\
    (forall v, userInfo !! "email" = Some v <->
               email claims = Some v /\ v <> "" /\
               email_verified claims = Some true) /\
    (forall v, userInfo !! "phone" = Some v <->
               phone claims = Some v /\ v <> "" /\
               phone_verified claims = Some true).
Proof.
  intros (doc & token & claims & Hdoc & Htoken & Hverify & Hacc & ->)
    %getUserInfo_Ok.
  exists claims. split; [by exists doc, token|].
  split; intros v.
  - rewrite userInfo_email. apply verified_string_Some.
  - rewrite userInfo_phone. apply verified_string_Some.
Qed.

Lemma getUserInfo_contact_fields_witness :
  exists claims,
    verified_claims Scenario.env Scenario.connector Scenario.session
      Scenario.data claims /\
    (forall v,
        (list_to_map [("id", "u1"); ("name", "Ada"); ("email", "a@b.com")]
           : JsObject) !! "email" = Some v <->
        email claims = Some v /\ v <> "" /\
        email_verified claims = Some true) /\
    (forall v,
        (list_to_map [("id", "u1"); ("name", "Ada"); ("email", "a@b.com")]
           : JsObject) !! "phone" = Some v <->
        phone claims = Some v /\ v <> "" /\
        phone_verified claims = Some true).
Proof.
  apply (getUserInfo_contact_fields
           Scenario.env Scenario.connector Scenario.session Scenario.data
           Scenario.redirected _ Scenario.called_back).
  vm_compute. reflexivity.
Defined.

(** C2, as the specification words it, fails: with an email claim that is
    present but empty and [email_verified] true, the returned user info has
    no [email] field. *)
Lemma getUserInfo_present_verified_email_dropped :
  getUserInfo EmptyContact.empty_env Scenario.connector Scenario.session
    Scenario.data Scenario.redirected
  = (Ok {[ "id" := "u1" ]}, Scenario.called_back) /\
  ~ (is_Some (({[ "id" := "u1" ]} : JsObject) !! "email") <->
     is_Some (email EmptyContact.empty_claims) /\
     email_verified EmptyContact.empty_claims = Some true).
Proof.
  split; [vm_compute; reflexivity|].
  intros [_ H]. destruct H as [v Hv]; [by split; [eexists|]|].
  vm_compute in Hv. discriminate.
Qed.

(** C9. In the user info returned by [getUserInfo], an optional field needs
    a non-empty value: an empty email claim gives no [email] field even
    when [email_verified] is true, an empty phone claim gives no [phone]
    field, an empty name gives no [name] field and an empty picture gives
    no [avatar] field. *)
Theorem getUserInfo_empty_values_omitted env self session data w userInfo w' :
  getUserInfo env self session data w = (Ok userInfo, w') ->
  exists claims,
    verified_claims env self session data claims /\
    (email claims = Some "" -> userInfo !! "email" = None) /\
    (phone claims = Some "" -> userInfo !! "phone" = None) /\
    (name claims = Some "" -> userInfo !! "name" = None) /\
    (picture claims = Some "" -> userInfo !! "avatar" = None).
Proof.
  intros (doc & token & claims & Hdoc & Htoken & Hverify & Hacc & ->)
    %getUserInfo_Ok.
  exists claims. split; [by exists doc, token|].
  rewrite userInfo_email, userInfo_phone, userInfo_name, userInfo_avatar.
  repeat split; intros ->; simpl; try done.
  - by destruct (email_verified claims) as [[]|].
  - by destruct (phone_verified claims) as [[]|].
Qed.

Lemma getUserInfo_empty_values_omitted_witness :
  (email EmptyContact.empty_claims = Some "" /\
   email_verified EmptyContact.empty_claims = Some true) /\
  exists claims,
    verified_claims EmptyContact.empty_env Scenario.connector Scenario.session
      Scenario.data claims /\
    (email claims = Some "" ->
     ({[ "id" := "u1" ]} : JsObject) !! "email" = None) /\
    (phone claims = Some "" ->
     ({[ "id" := "u1" ]} : JsObject) !! "phone" = None) /\
    (name claims = Some "" ->
     ({[ "id" := "u1" ]} : JsObject) !! "name" = None) /\
    (picture claims = Some "" ->
     ({[ "id" := "u1" ]} : JsObject) !! "avatar" = None).
Proof.
  split; [split; reflexivity|].
  apply (getUserInfo_empty_values_omitted
           EmptyContact.empty_env Scenario.connector Scenario.session Scenario.data
           Scenario.redirected _ Scenario.called_back).
  vm_compute. reflexivity.
Defined.

(** Whatever happens, no redirect URI other than the session's reaches the
    token endpoint. *)
Lemma getUserInfo_no_other_redirectUri env self session data w uri :
  uri ∈ token_redirects
          (events_since w (getUserInfo env self session data w).2) ->
  uri = redirectUri session.
Proof.
  rewrite getUserInfo_run.
  destruct (discovery env (issuer self)) as [doc|e]; cbv zeta.
  - destruct (tokenEndpoint env _ data _) as [token|e]; simpl;
      rewrite events_since_app; simpl; by intros ->%list_elem_of_singleton.
  - simpl. rewrite events_since_app. simpl. by intros ?%elem_of_nil.
Qed.

(** C10. The one token exchange that [getUserInfo] performs is made with
    the [redirectUri] of the flow session it was passed, and no other
    redirect URI is ever sent; so, when the session is the one that a
    successful [getAuthorizationUrl] stored, the token endpoint receives
    the redirect URI of the authorization request, the value of the
    [redirect_uri] parameter of the authorization URL. *)
Theorem getUserInfo_exchanges_with_session_redirectUri
    env self session data w doc :
  discovery env (issuer self) = Ok doc ->
  events_since w (getUserInfo env self session data w).2
    !! 1 = Some (TokenExchange (spread (config self) doc) data
                   (redirectUri session)) /\
  token_redirects (events_since w (getUserInfo env self session data w).2)
    = [redirectUri session] /\
  (forall state redirectUri connectorId setSession w0 url w1,
      getAuthorizationUrl env self state redirectUri connectorId setSession w0
        = (Ok url, w1) ->
      stored_sessions (events_since w0 w1) = [session] ->
      token_redirects (events_since w (getUserInfo env self session data w).2)
        = [redirectUri] /\
      exists query,
        url = js_to_string
                (spread (config self) doc !! "authorizationEndpoint")
              +:+ "?" +:+ query /\
        searchParams_get "redirect_uri" (parse_query query)
          = Some redirectUri).
Proof.
  intros Hdoc.
  assert (Hexchange :
    events_since w (getUserInfo env self session data w).2
      !! 1 = Some (TokenExchange (spread (config self) doc) data
                     (redirectUri session)) /\
    token_redirects (events_since w (getUserInfo env self session data w).2)
      = [redirectUri session]).
  { rewrite getUserInfo_run, Hdoc. cbv zeta.
    destruct (tokenEndpoint env _ data _) as [token|e]; simpl;
      by rewrite events_since_app. }
  destruct Hexchange as [Hevent Hredirects].
  split; [done|]. split; [done|].
  intros st ru cid setSession w0 url w1 Hurl Hstored.
  destruct setSession as [setSession|]; [|discriminate].
  rewrite getAuthorizationUrl_run, Hdoc in Hurl. cbv zeta in Hurl.
  destruct (setSession _) as [[]|e]; [|discriminate].
  injection Hurl as <- <-. rewrite events_since_app in Hstored.
  injection Hstored as <-. simpl in Hredirects.
  split; [done|]. eexists. split; [reflexivity|].
  by rewrite parse_query_toString.
Qed.

Lemma getUserInfo_exchanges_with_session_redirectUri_witness :
  token_redirects
    (events_since Scenario.redirected
       (getUserInfo Scenario.env Scenario.connector Scenario.session
          Scenario.data Scenario.redirected).2)
  = ["https://app.example/cb"].
Proof.
  destruct (getUserInfo_exchanges_with_session_redirectUri
              Scenario.env Scenario.connector Scenario.session Scenario.data
              Scenario.redirected Scenario.document eq_refl)
    as (_ & _ & Hflow).
  apply (Hflow "st1" "https://app.example/cb" "conn1"
           (Some Scenario.setSession) Scenario.start
           Scenario.url Scenario.redirected);
    reflexivity.
Defined.

(** * Further properties of the connector *)

(** ** Discovery *)

Lemma events_since_app2 w evs evs' d :
  events_since w {| events := (events w ++ evs) ++ evs'; drawn := d |}
    = (evs ++ evs')%list.
Proof. rewrite <- app_assoc. apply events_since_app. Qed.

(** X1. [getOidcConfig] throws exactly when the discovery request fails,
    and then throws the very error of the request; no other step of it can
    fail. *)
Theorem getOidcConfig_throws_iff env self w e :
  (getOidcConfig env self w).1 = Throw e <->
  discovery env (issuer self) = Throw e.
Proof.
  rewrite getOidcConfig_run; simpl.
  destruct (discovery env (issuer self)) as [doc|e']; split;
    congruence.
Qed.

Lemma getOidcConfig_throws_iff_witness :
  (getOidcConfig Outage.outage_env Scenario.connector Scenario.start).1
    = Throw InvalidConfig.
Proof.
  apply (getOidcConfig_throws_iff
           Outage.outage_env Scenario.connector Scenario.start InvalidConfig).
  reflexivity.
Defined.

(** X2. Whatever the outcome, one call of [getOidcConfig] makes exactly one
    discovery request, for the issuer of the static configuration (the one
    that the [issuer] getter reports), and nothing else: no session is stored, no token is exchanged, no key set
    is fetched and no identifier is drawn. *)
Theorem getOidcConfig_one_discovery_request env self w :
  events_since w (getOidcConfig env self w).2
    = [DiscoveryFetch (issuer self)] /\
  drawn (getOidcConfig env self w).2 = drawn w.
Proof.
  rewrite getOidcConfig_run; simpl.
  by rewrite events_since_app.
Qed.

(** X3. The resolved configuration has the fields of the static
    configuration and those of the discovery document, and no other: the
    merge neither drops nor invents a field. *)
Theorem getOidcConfig_fields env self w doc resolved w' :
  discovery env (issuer self) = Ok doc ->
  getOidcConfig env self w = (Ok resolved, w') ->
  dom resolved = dom (config self) ∪ dom doc.
Proof.
  intros Hdoc. rewrite getOidcConfig_run, Hdoc. intros [= <- ?].
  unfold spread. rewrite dom_union_L. apply (comm_L (∪)).
Qed.

Lemma getOidcConfig_fields_witness :
  dom (spread (config MergeExample.merge_static) MergeExample.merge_document)
    = dom (config MergeExample.merge_static)
      ∪ dom MergeExample.merge_document.
Proof.
  apply (getOidcConfig_fields
           MergeExample.merge_env MergeExample.merge_static
           MergeExample.merge_start MergeExample.merge_document _
           {| events := [DiscoveryFetch (Some "https://idp.example/oidc")];
              drawn := 0 |});
    reflexivity.
Defined.

(** ** Authorization request: failures *)

(** X4. When the discovery request fails, [getAuthorizationUrl] throws the
    error of the request and stops there: no session is stored and no
    nonce is drawn. *)
Theorem getAuthorizationUrl_discovery_failure
    env self state redirectUri connectorId setSession w e :
  discovery env (issuer self) = Throw e ->
  getAuthorizationUrl env self state redirectUri connectorId
    (Some setSession) w
  = (Throw e,
     {| events := events w ++ [DiscoveryFetch (issuer self)];
        drawn := drawn w |}).
Proof.
  intros Hdoc. by rewrite getAuthorizationUrl_run, Hdoc.
Qed.

Lemma getAuthorizationUrl_discovery_failure_witness :
  getAuthorizationUrl Outage.outage_env Scenario.connector
    "st1" "https://app.example/cb" "conn1"
    (Some Scenario.setSession) Scenario.start
  = (Throw InvalidConfig, Outage.outage_world).
Proof.
  apply (getAuthorizationUrl_discovery_failure
           Outage.outage_env Scenario.connector
           "st1" "https://app.example/cb" "conn1"
           Scenario.setSession Scenario.start InvalidConfig).
  reflexivity.
Defined.

(** X5. When the session-persistence callback throws, [getAuthorizationUrl]
    throws the same error and returns no URL; by then the callback has been
    called once, with the session of this call. *)
Theorem getAuthorizationUrl_setSession_failure
    env self state redirectUri connectorId setSession w doc e :
  discovery env (issuer self) = Ok doc ->
  setSession {| nonce := randomId env (drawn w); redirectUri := redirectUri;
                connectorId := connectorId; state := state |} = Throw e ->
  (getAuthorizationUrl env self state redirectUri connectorId
     (Some setSession) w).1 = Throw e /\
  stored_sessions
    (events_since w
       (getAuthorizationUrl env self state redirectUri connectorId
          (Some setSession) w).2)
  = [ {| nonce := randomId env (drawn w); redirectUri := redirectUri;
         connectorId := connectorId; state := state |} ].
Proof.
  intros Hdoc Hcall. rewrite getAuthorizationUrl_run, Hdoc. cbv zeta.
  rewrite Hcall; simpl. by rewrite events_since_app.
Qed.

Lemma getAuthorizationUrl_setSession_failure_witness :
  (getAuthorizationUrl Scenario.env Scenario.connector
     "st1" "https://app.example/cb" "conn1"
     (Some Rejected.failing_setSession) Scenario.start).1 = Throw General /\
  stored_sessions
    (events_since Scenario.start
       (getAuthorizationUrl Scenario.env Scenario.connector
          "st1" "https://app.example/cb" "conn1"
          (Some Rejected.failing_setSession) Scenario.start).2)
  = [ Scenario.session ].
Proof.
  apply (getAuthorizationUrl_setSession_failure
           Scenario.env Scenario.connector
           "st1" "https://app.example/cb" "conn1"
           Rejected.failing_setSession Scenario.start
           Scenario.document General);
    reflexivity.
Defined.

(** X6. [getAuthorizationUrl] returns a URL exactly when a callback is
    given, the discovery request succeeds and the callback accepts the
    session of this call. *)
Theorem getAuthorizationUrl_succeeds_iff
    env self state redirectUri connectorId setSession w :
  (exists url,
      (getAuthorizationUrl env self state redirectUri connectorId
         setSession w).1 = Ok url) <->
  (exists callback doc,
      setSession = Some callback /\
      discovery env (issuer self) = Ok doc /\
      callback {| nonce := randomId env (drawn w); redirectUri := redirectUri;
                  connectorId := connectorId; state := state |} = Ok tt).
Proof.
  destruct setSession as [callback|].
  - rewrite getAuthorizationUrl_run.
    destruct (discovery env (issuer self)) as [doc|e]; cbv zeta.
    + destruct (callback _) as [[]|e] eqn:Hcall; simpl; split.
      * intros _. by exists callback, doc.
      * intros _. by eexists.
      * by intros [url [=]].
      * intros (cb & d & [= <-] & _ & Hcb). congruence.
    + split; [by intros [url [=]]|].
      by intros (cb & d & _ & [=] & _).
  - split; [by intros [url [=]]|].
    by intros (cb & d & [=] & _).
Qed.

Lemma getAuthorizationUrl_succeeds_iff_witness :
  exists url,
    (getAuthorizationUrl Scenario.env Scenario.connector
       "st1" "https://app.example/cb" "conn1"
       (Some Scenario.setSession) Scenario.start).1 = Ok url.
Proof.
  apply (getAuthorizationUrl_succeeds_iff
           Scenario.env Scenario.connector
           "st1" "https://app.example/cb" "conn1"
           (Some Scenario.setSession) Scenario.start).
  exists Scenario.setSession, Scenario.document.
  repeat split; reflexivity.
Defined.

(** ** Authorization request: what the URL depends on *)

Lemma string_forall_append p s t :
  string_forall p (s +:+ t) = string_forall p s && string_forall p t.
Proof.
  induction s as [|c s IH]; [done|].
  rewrite append_cons; simpl. by rewrite IH, andb_assoc.
Qed.

Lemma urlencode_byte_query_bytes c :
  string_forall query_byte (urlencode_byte c) = true.
Proof. destruct c as [[] [] [] [] [] [] [] []]; reflexivity. Qed.

Lemma urlencode_query_bytes s : string_forall query_byte (urlencode s) = true.
Proof.
  induction s as [|c s IH]; [done|]. simpl.
  by rewrite string_forall_append, urlencode_byte_query_bytes, IH.
Qed.

Lemma toString_query_bytes params :
  string_forall query_byte (toString params) = true.
Proof.
  induction params as [|kv params IH]; [done|].
  rewrite toString_cons.
  assert (Hpair : string_forall query_byte (urlencode_pair kv) = true).
  { unfold urlencode_pair. rewrite !string_forall_append.
    by rewrite !urlencode_query_bytes. }
  destruct params as [|kv' params]; [done|].
  rewrite string_forall_append, Hpair. simpl. by rewrite IH.
Qed.

(** X7. Whatever bytes the caller's [state] and [redirectUri] and the
    configured client identifier and scope contain, the query string of
    the returned URL is made only of ASCII letters and digits and of
    [*], [-], [.], [_], [+], [%], [&] and [=]: no raw space, [#], [?],
    quote or control byte gets into it. *)
Theorem getAuthorizationUrl_query_bytes
    env self state redirectUri connectorId setSession w url w' :
  getAuthorizationUrl env self state redirectUri connectorId setSession w
    = (Ok url, w') ->
  exists doc query,
    discovery env (issuer self) = Ok doc /\
    url = js_to_string (spread (config self) doc !! "authorizationEndpoint")
          +:+ "?" +:+ query /\
    string_forall query_byte query = true.
Proof.
  destruct setSession as [setSession|]; [|discriminate].
  rewrite getAuthorizationUrl_run.
  destruct (discovery env (issuer self)) as [doc|e]; [|discriminate].
  cbv zeta. destruct (setSession _) as [[]|e]; [|discriminate].
  intros [= <- <-]. eexists doc, _. split; [done|]. split; [reflexivity|].
  apply toString_query_bytes.
Qed.

Lemma getAuthorizationUrl_query_bytes_witness :
  exists doc query,
    discovery Scenario.env (issuer Scenario.connector) = Ok doc /\
    Scenario.url
      = js_to_string
          (spread (config Scenario.connector) doc !! "authorizationEndpoint")
        +:+ "?" +:+ query /\
    string_forall query_byte query = true.
Proof.
  apply (getAuthorizationUrl_query_bytes
           Scenario.env Scenario.connector
           "st1" "https://app.example/cb" "conn1"
           (Some Scenario.setSession) Scenario.start
           Scenario.url Scenario.redirected).
  reflexivity.
Defined.

(** X8. The outcome of [getAuthorizationUrl], and so the returned URL, does
    not depend on the client secret: a connector that differs only in the
    [clientSecret] of its static configuration gives the same result. The
    secret never reaches the authorization URL. *)
Theorem getAuthorizationUrl_independent_of_clientSecret
    env self secret state redirectUri connectorId setSession w :
  (getAuthorizationUrl env
     {| config := <[ "clientSecret" := secret ]> (config self) |}
     state redirectUri connectorId setSession w).1
  = (getAuthorizationUrl env self state redirectUri connectorId
       setSession w).1.
Proof.
  destruct setSession as [setSession|]; [|done].
  rewrite !getAuthorizationUrl_run. unfold issuer; simpl.
  rewrite lookup_insert_ne by done.
  destruct (discovery env (config self !! "issuer")) as [doc|e]; [|done].
  cbv zeta. simpl. destruct (setSession _) as [[]|e]; [|done].
  unfold authorization_parameters.
  rewrite !lookup_spread, !lookup_insert_ne by done.
  by rewrite <- !lookup_spread.
Qed.

(** X9. The returned URL does not depend on the connector identifier: two
    successful calls that differ only in [connectorId] return the same
    URL. The identifier goes to the stored session only. *)
Theorem getAuthorizationUrl_independent_of_connectorId
    env self state redirectUri connectorId connectorId' setSession setSession'
    w url url' w1 w1' :
  getAuthorizationUrl env self state redirectUri connectorId setSession w
    = (Ok url, w1) ->
  getAuthorizationUrl env self state redirectUri connectorId' setSession' w
    = (Ok url', w1') ->
  url = url'.
Proof.
  destruct setSession as [setSession|]; [|discriminate].
  destruct setSession' as [setSession'|]; [|discriminate].
  rewrite !getAuthorizationUrl_run.
  destruct (discovery env (issuer self)) as [doc|e]; [|discriminate].
  cbv zeta.
  destruct (setSession _) as [[]|e]; [|discriminate].
  destruct (setSession' _) as [[]|e]; [|discriminate].
  by intros [= <- _] [= <- _].
Qed.

Lemma getAuthorizationUrl_independent_of_connectorId_witness :
  (getAuthorizationUrl Scenario.env Scenario.connector
     "st1" "https://app.example/cb" "conn2"
     (Some Scenario.setSession) Scenario.start).1 = Ok Scenario.url /\
  Scenario.url = Scenario.url.
Proof.
  split; [reflexivity|].
  apply (getAuthorizationUrl_independent_of_connectorId
           Scenario.env Scenario.connector
           "st1" "https://app.example/cb" "conn1" "conn2"
           (Some Scenario.setSession) (Some Scenario.setSession)
           Scenario.start Scenario.url Scenario.url
           Scenario.redirected
           {| events :=
                [ DiscoveryFetch (Some "https://idp.example/oidc");
                  SessionStore
                    {| nonce := "n0nce";
                       redirectUri := "https://app.example/cb";
                       connectorId := "conn2"; state := "st1" |} ];
              drawn := 1 |});
    reflexivity.
Defined.



(** ** Callback: failures and effects *)

(** X11. When the discovery request fails, [getUserInfo] throws the error
    of the request and stops there: the authorization code is not sent to
    the token endpoint and no key set is fetched. *)
Theorem getUserInfo_discovery_failure env self session data w e :
  discovery env (issuer self) = Throw e ->
  getUserInfo env self session data w
  = (Throw e,
     {| events := events w ++ [DiscoveryFetch (issuer self)];
        drawn := drawn w |}).
Proof.
  intros Hdoc. by rewrite getUserInfo_run, Hdoc.
Qed.

Lemma getUserInfo_discovery_failure_witness :
  getUserInfo Outage.outage_env Scenario.connector Scenario.session
    Scenario.data Scenario.start
  = (Throw InvalidConfig, Outage.outage_world).
Proof.
  apply (getUserInfo_discovery_failure
           Outage.outage_env Scenario.connector Scenario.session
           Scenario.data Scenario.start InvalidConfig).
  reflexivity.
Defined.

(** X12. When the token exchange fails, [getUserInfo] throws the error of
    the exchange and stops there: no identity token is validated, so no
    key set is fetched, and the exchange is not tried again. *)
Theorem getUserInfo_token_exchange_failure env self session data w doc e :
  discovery env (issuer self) = Ok doc ->
  tokenEndpoint env (spread (config self) doc) data (redirectUri session)
    = Throw e ->
  (getUserInfo env self session data w).1 = Throw e /\
  key_set_fetches
    (events_since w (getUserInfo env self session data w).2) = [] /\
  length
    (token_redirects
       (events_since w (getUserInfo env self session data w).2)) = 1.
Proof.
  intros Hdoc Htoken. rewrite getUserInfo_run, Hdoc. cbv zeta.
  rewrite Htoken; simpl. by rewrite events_since_app.
Qed.

Lemma getUserInfo_token_exchange_failure_witness :
  (getUserInfo Rejected.rejecting_env Scenario.connector Scenario.session
     Scenario.data Scenario.redirected).1 = Throw InvalidAuthCode /\
  key_set_fetches
    (events_since Scenario.redirected
       (getUserInfo Rejected.rejecting_env Scenario.connector
          Scenario.session Scenario.data Scenario.redirected).2) = [] /\
  length
    (token_redirects
       (events_since Scenario.redirected
          (getUserInfo Rejected.rejecting_env Scenario.connector
             Scenario.session Scenario.data Scenario.redirected).2)) = 1.
Proof.
  apply (getUserInfo_token_exchange_failure
           Rejected.rejecting_env Scenario.connector Scenario.session
           Scenario.data Scenario.redirected Scenario.document
           InvalidAuthCode);
    reflexivity.
Defined.

(** X13. Whatever its outcome, [getUserInfo] makes exactly one discovery
    request, for the issuer of the static configuration, stores no session
    and draws no identifier. *)
Theorem getUserInfo_effects env self session data w :
  discovery_requests
    (events_since w (getUserInfo env self session data w).2)
    = [issuer self] /\
  stored_sessions
    (events_since w (getUserInfo env self session data w).2) = [] /\
  drawn (getUserInfo env self session data w).2 = drawn w.
Proof.
  rewrite getUserInfo_run.
  destruct (discovery env (issuer self)) as [doc|e]; cbv zeta.
  - destruct (tokenEndpoint env _ data _) as [token|e]; simpl;
      by rewrite events_since_app.
  - simpl. by rewrite events_since_app.
Qed.

(** X14. [getUserInfo] reads only the [nonce] and the [redirectUri] of the
    session it is given: two sessions that agree on these two fields give
    the same run, whatever their [state] and [connectorId]. Comparing the
    returned state with the stored one is left to the caller. *)
Theorem getUserInfo_reads_nonce_and_redirectUri
    env self session session' data w :
  nonce session = nonce session' ->
  redirectUri session = redirectUri session' ->
  getUserInfo env self session data w = getUserInfo env self session' data w.
Proof.
  intros Hnonce Hredirect. rewrite !getUserInfo_run.
  destruct (discovery env (issuer self)) as [doc|e]; [|done].
  cbv zeta. by rewrite Hnonce, Hredirect.
Qed.

Lemma getUserInfo_reads_nonce_and_redirectUri_witness :
  getUserInfo Scenario.env Scenario.connector Scenario.session
    Scenario.data Scenario.redirected
  = getUserInfo Scenario.env Scenario.connector
      {| nonce := "n0nce"; redirectUri := "https://app.example/cb";
         connectorId := "another-connector"; state := "another-state" |}
      Scenario.data Scenario.redirected.
Proof.
  apply (getUserInfo_reads_nonce_and_redirectUri
           Scenario.env Scenario.connector Scenario.session
           {| nonce := "n0nce"; redirectUri := "https://app.example/cb";
              connectorId := "another-connector";
              state := "another-state" |}
           Scenario.data Scenario.redirected);
    reflexivity.
Defined.

(** X15. A whole flow asks for the discovery document twice: after a
    successful [getAuthorizationUrl], the [getUserInfo] of the callback
    fetches it again, for the same issuer; the resolved configuration of
    the first call is not kept. *)
Theorem flow_discovers_twice
    env self state redirectUri connectorId setSession w url w1 session data :
  getAuthorizationUrl env self state redirectUri connectorId setSession w
    = (Ok url, w1) ->
  discovery_requests
    (events_since w (getUserInfo env self session data w1).2)
  = [issuer self; issuer self].
Proof.
  destruct setSession as [setSession|]; [|discriminate].
  rewrite getAuthorizationUrl_run.
  destruct (discovery env (issuer self)) as [doc|e] eqn:Hdoc; [|discriminate].
  cbv zeta. destruct (setSession _) as [[]|e]; [|discriminate].
  intros [= _ <-]. rewrite getUserInfo_run, Hdoc. cbv zeta.
  destruct (tokenEndpoint env _ data _) as [token|e]; simpl;
    by rewrite events_since_app2.
Qed.

Lemma flow_discovers_twice_witness :
  discovery_requests
    (events_since Scenario.start
       (getUserInfo Scenario.env Scenario.connector Scenario.session
          Scenario.data Scenario.redirected).2)
  = [ issuer Scenario.connector; issuer Scenario.connector ].
Proof.
  apply (flow_discovers_twice
           Scenario.env Scenario.connector
           "st1" "https://app.example/cb" "conn1"
           (Some Scenario.setSession) Scenario.start
           Scenario.url Scenario.redirected Scenario.session Scenario.data).
  reflexivity.
Defined.

(** ** Callback: the returned user info *)

Lemma userInfo_other claims k :
  k ∉ userInfo_fields -> userInfoOfClaims claims !! k = None.
Proof.
  unfold userInfo_fields. rewrite !not_elem_of_cons.
  intros (Hid & Hname & Havatar & Hemail & Hphone & _).
  rewrite userInfoOfClaims_unfold, !lookup_spread_optional_field.
  rewrite !decide_False by congruence.
  apply lookup_singleton_ne. congruence.
Qed.

Lemma truthy_string_Some v s :
  truthy_string v = Some s <-> v = Some s /\ s <> "".
Proof.
  unfold truthy_string. destruct v as [x|]; [|split; [done|by intros [? ?]]].
  destruct (String.eqb x "") eqn:Hx.
  - apply String.eqb_eq in Hx as ->. split; [done|]. by intros [[= <-] ?].
  - apply String.eqb_neq in Hx. split.
    + by intros [= <-].
    + by intros [[= <-] ?].
Qed.

(** X16. The user info that [getUserInfo] returns always has an [id], the
    subject of the verified claims, and has no property besides [id],
    [name], [avatar], [email] and [phone]: no other claim of the token is
    forwarded. *)
Theorem getUserInfo_id_and_fields env self session data w userInfo w' :
  getUserInfo env self session data w = (Ok userInfo, w') ->
  exists claims,
    verified_claims env self session data claims /\
    userInfo !! "id" = Some (sub claims) /\
    (forall k, is_Some (userInfo !! k) -> k ∈ userInfo_fields).
Proof.
  intros (doc & token & claims & Hdoc & Htoken & Hverify & Hacc & ->)
    %getUserInfo_Ok.
  exists claims. split; [by exists doc, token|].
  split; [apply userInfo_id|].
  intros k [v Hv]. destruct (decide (k ∈ userInfo_fields)) as [|Hk]; [done|].
  rewrite userInfo_other in Hv by done. discriminate.
Qed.

Lemma getUserInfo_id_and_fields_witness :
  exists claims,
    verified_claims Scenario.env Scenario.connector Scenario.session
      Scenario.data claims /\
    (list_to_map [("id", "u1"); ("name", "Ada"); ("email", "a@b.com")]
       : JsObject) !! "id" = Some (sub claims) /\
    (forall k,
        is_Some
          ((list_to_map [("id", "u1"); ("name", "Ada"); ("email", "a@b.com")]
              : JsObject) !! k) ->
        k ∈ userInfo_fields).
Proof.
  apply (getUserInfo_id_and_fields
           Scenario.env Scenario.connector Scenario.session Scenario.data
           Scenario.redirected _ Scenario.called_back).
  vm_compute. reflexivity.
Defined.

(** X17. The user info has a [name] exactly when the name claim is present
    and not empty, and an [avatar] exactly when the picture claim is
    present and not empty; the fields hold the claims' values, verified
    flags play no part, and the picture is never passed on under its own
    name. *)
Theorem getUserInfo_name_and_avatar env self session data w userInfo w' :
  getUserInfo env self session data w = (Ok userInfo, w') ->
  exists claims,
    verified_claims env self session data claims /\
    (forall v, userInfo !! "name" = Some v <->
               name claims = Some v /\ v <> "") /\
    (forall v, userInfo !! "avatar" = Some v <->
               picture claims = Some v /\ v <> "") /\
    userInfo !! "picture" = None.
Proof.
  intros (doc & token & claims & Hdoc & Htoken & Hverify & Hacc & ->)
    %getUserInfo_Ok.
  exists claims. split; [by exists doc, token|].
  split; [|split].
  - intros v. rewrite userInfo_name. apply truthy_string_Some.
  - intros v. rewrite userInfo_avatar. apply truthy_string_Some.
  - apply userInfo_other. unfold userInfo_fields.
    rewrite !not_elem_of_cons.
    repeat split; try discriminate. apply not_elem_of_nil.
Qed.

Lemma getUserInfo_name_and_avatar_witness :
  exists claims,
    verified_claims Scenario.env Scenario.connector Scenario.session
      Scenario.data claims /\
    (forall v,
        (list_to_map [("id", "u1"); ("name", "Ada"); ("email", "a@b.com")]
           : JsObject) !! "name" = Some v <->
        name claims = Some v /\ v <> "") /\
    (forall v,
        (list_to_map [("id", "u1"); ("name", "Ada"); ("email", "a@b.com")]
           : JsObject) !! "avatar" = Some v <->
        picture claims = Some v /\ v <> "") /\
    (list_to_map [("id", "u1"); ("name", "Ada"); ("email", "a@b.com")]
       : JsObject) !! "picture" = None.
Proof.
  apply (getUserInfo_name_and_avatar
           Scenario.env Scenario.connector Scenario.session Scenario.data
           Scenario.redirected _ Scenario.called_back).
  vm_compute. reflexivity.
Defined.

(** ** Authorization request: the stored session and the URL *)

(** X18. For every successful call whose authorization endpoint has no
    query and no fragment of its own, the session-persistence callback is
    invoked exactly once, with the record made of a nonce and the caller's
    [redirectUri], [connectorId] and [state], and the nonce of that record
    is the value of the [nonce] parameter in the query string of the
    returned URL. *)
Theorem getAuthorizationUrl_stored_nonce_is_url_nonce
    env self state redirectUri connectorId setSession w url w' doc :
  discovery env (issuer self) = Ok doc ->
  occurs "?"
    (js_to_string (spread (config self) doc !! "authorizationEndpoint"))
    = false ->
  occurs "#"
    (js_to_string (spread (config self) doc !! "authorizationEndpoint"))
    = false ->
  getAuthorizationUrl env self state redirectUri connectorId setSession w
    = (Ok url, w') ->
  exists stored query,
    stored_sessions (events_since w w') = [stored] /\
    stored = {| nonce := nonce stored; redirectUri := redirectUri;
                connectorId := connectorId; state := state |} /\
    (exists callback, setSession = Some callback /\ callback stored = Ok tt) /\
    url_query url = Some query /\
    searchParams_get "nonce" (parse_query query) = Some (nonce stored).
Proof.
  intros Hdoc Hquery Hfragment.
  destruct setSession as [setSession|]; [|discriminate].
  rewrite getAuthorizationUrl_run, Hdoc. cbv zeta.
  destruct (setSession _) as [[]|e] eqn:Hcall; [|discriminate].
  intros [= <- <-]. rewrite events_since_app.
  eexists _, _. split; [reflexivity|]. split; [reflexivity|].
  split; [by eexists|]. split.
  - apply url_query_of_plain_endpoint; [done..|apply toString_no_fragment].
  - by rewrite parse_query_toString.
Qed.

Lemma getAuthorizationUrl_stored_nonce_is_url_nonce_witness :
  exists stored query,
    stored_sessions (events_since Scenario.start Scenario.redirected)
      = [stored] /\
    stored = {| nonce := nonce stored;
                redirectUri := "https://app.example/cb";
                connectorId := "conn1"; state := "st1" |} /\
    (exists callback,
        Some Scenario.setSession = Some callback /\ callback stored = Ok tt) /\
    url_query Scenario.url = Some query /\
    searchParams_get "nonce" (parse_query query) = Some (nonce stored).
Proof.
  apply (getAuthorizationUrl_stored_nonce_is_url_nonce
           Scenario.env Scenario.connector
           "st1" "https://app.example/cb" "conn1"
           (Some Scenario.setSession) Scenario.start
           Scenario.url Scenario.redirected Scenario.document);
    reflexivity.
Defined.
